(** * Quantum random number generator: the sampling and validation pipeline

    A shallow embedding of [main.py]: the loop of [generate_random_numbers]
    that flattens the simulator's counts into a list of samples,
    [calculate_statistics] and [chi_square_test].

    Python integers are [Z], the keys of the counts dictionary are
    [string]s, the dictionary itself is the list of its items in iteration
    order, and a raised exception is the [Raise] case of [result]. *)

From Stdlib Require Import ZArith List Bool Ascii String Lia.
From Stdlib Require Import Sorting.Permutation.
From Stdlib Require Floats.PrimFloat Numbers.Cyclic.Int63.Uint63.
From Stdlib Require Reals.Reals.
From Stdlib Require Import DecimalString Lra.
From Stdlib Require DecimalZ DecimalPos.
Import ListNotations.

Local Open Scope Z_scope.

(** ** Exceptions *)

(** The source defines no exception class of its own and has no [raise]
    statement: what it raises, its library calls raise.  [ValueError] comes
    from [int], [np.bincount], [np.min], [np.max] and array arithmetic;
    [TypeError] is what an argument of the wrong type gives (a count that is
    not an integer, a number of qubits that is not a natural number), and
    the typed model has no such input. *)
Inductive exn : Type :=
| ValueError
| TypeError.

Inductive result (A : Type) : Type :=
| Ok (a : A)
| Raise (e : exn).

Arguments Ok {A} a.
Arguments Raise {A} e.

Definition is_ok {A : Type} (r : result A) : bool :=
  match r with Ok _ => true | Raise _ => false end.

(** ** The built-in [int(s, 2)] *)

Module PyInt.

Local Open Scope char_scope.

(** White space as [int] sees it in a string of code points below 256: the
    six characters of C's [Py_ISSPACE], and U+0085 and U+00A0, which the
    conversion of a non-ASCII string turns into a blank. *)
Definition is_space (c : ascii) : bool :=
  let k := nat_of_ascii c in
  (Nat.leb 9 k && Nat.leb k 13) || Nat.eqb k 32 || Nat.eqb k 133 || Nat.eqb k 160.

Definition is_underscore (c : ascii) : bool := Ascii.eqb c "_".

(** The value of a digit of base 2. *)
Definition digit_value (c : ascii) : option Z :=
  match c with
  | "0" => Some 0%Z
  | "1" => Some 1%Z
  | _ => None
  end.

Fixpoint skip_space (s : list ascii) : list ascii :=
  match s with
  | c :: s' => if is_space c then skip_space s' else s
  | [] => []
  end.

(** An optional sign; [true] stands for a minus. *)
Definition read_sign (s : list ascii) : bool * list ascii :=
  match s with
  | "+" :: s' => (false, s')
  | "-" :: s' => (true, s')
  | _ => (false, s)
  end.

(** An optional [0b] or [0B], after which one underscore is allowed. *)
Definition skip_prefix (s : list ascii) : list ascii :=
  match s with
  | "0" :: "b" :: s' | "0" :: "B" :: s' =>
      match s' with
      | "_" :: s'' => s''
      | _ => s'
      end
  | _ => s
  end.

(** The loop over digits and underscores: [prev] is the character read
    last, [acc] the value of the digits read so far.  It stops at the first
    character that is neither, and gives the value with the rest of the
    input; two underscores in a row and an underscore at the end are syntax
    errors. *)
Fixpoint scan_digits (p : list ascii) (prev : ascii) (acc : Z)
  : option (Z * list ascii) :=
  match p with
  | c :: p' =>
      if is_underscore c then
        if is_underscore prev then None else scan_digits p' c acc
      else
        match digit_value c with
        | Some d => scan_digits p' c (2 * acc + d)%Z
        | None => if is_underscore prev then None else Some (acc, p)
        end
  | [] => if is_underscore prev then None else Some (acc, [])
  end.

(** What follows the sign and the prefix: no underscore in front, at least
    one character read, and only white space after the digits. *)
Definition long_from_string_base (s : list ascii) : option Z :=
  match s with
  | "_" :: _ => None
  | _ =>
      match scan_digits s Ascii.zero 0%Z with
      | None => None
      | Some (v, rest) =>
          if Nat.eqb (List.length rest) (List.length s) then None
          else
            match skip_space rest with
            | [] => Some v
            | _ :: _ => None
            end
      end
  end.

Definition long_from_string (s : list ascii) : option Z :=
  let '(negative, s1) := read_sign (skip_space s) in
  match long_from_string_base (skip_prefix s1) with
  | Some v => Some (if negative then (- v)%Z else v)
  | None => None
  end.

(** [int(s, 2)]: the integer, or [ValueError] ("invalid literal"). *)
Definition int_base2 (s : string) : result Z :=
  match long_from_string (list_ascii_of_string s) with
  | Some v => Ok v
  | None => Raise ValueError
  end.

End PyInt.

(** ** The expansion loop of [generate_random_numbers] *)

(** [[x] * count]: a list of [count] copies, empty when [count <= 0]. *)
Definition list_mul {A : Type} (x : A) (count : Z) : list A :=
  repeat x (Z.to_nat count).

(** The body of [for binary_string, count in counts.items()], with the list
    [random_numbers] built so far as the loop's state. *)
Fixpoint expand_loop (items : list (string * Z)) (random_numbers : list Z)
  : result (list Z) :=
  match items with
  | [] => Ok random_numbers
  | (binary_string, count) :: rest =>
      match PyInt.int_base2 binary_string with
      | Raise e => Raise e
      | Ok decimal_value =>
          expand_loop rest (random_numbers ++ list_mul decimal_value count)
      end
  end.

Definition expand (counts : list (string * Z)) : result (list Z) :=
  expand_loop counts [].

Section Oracle.

(** The simulator run ([AerSimulator], [transpile], [get_counts]) is outside
    the pipeline: it is taken as the function that gives the counts. *)
Variable get_counts : Z -> Z -> list (string * Z).

Definition generate_random_numbers (num_qubits num_samples : Z)
  : result (list Z) :=
  expand (get_counts num_qubits num_samples).

End Oracle.

(** A bit pattern of exactly [n] digits. *)
Definition is_bit (c : ascii) : bool :=
  Ascii.eqb c "0"%char || Ascii.eqb c "1"%char.

Definition bit_pattern (n : nat) (s : string) : bool :=
  Nat.eqb (String.length s) n && forallb is_bit (list_ascii_of_string s).

Definition bit_of (c : ascii) : Z := if Ascii.eqb c "1"%char then 1 else 0.

(** The number a bit pattern writes, most significant digit first. *)
Definition bin_value (s : string) : Z :=
  fold_left (fun acc c => 2 * acc + bit_of c) (list_ascii_of_string s) 0.

(** ** Numbers *)

(** The arithmetic the source leaves to NumPy, Python floats and SciPy: the
    float64 operations, the conversion of an integer, and the distribution
    function [scipy.stats.chi2.cdf].  The pipeline is written once over this
    interface and read at binary64 or at the real numbers. *)
Class Numeric (F : Type) : Type := {
  of_int : Z -> F;
  fadd : F -> F -> F;
  fsub : F -> F -> F;
  fmul : F -> F -> F;
  fdiv : F -> F -> F;
  fsqrt : F -> F;
  chi2_cdf : F -> Z -> F
}.

(** A computation that calls NumPy's descriptive functions: the calls made,
    in order, and the value or the exception that ended it. *)
Inductive call : Type :=
| Call_mean
| Call_std
| Call_min
| Call_max.

Definition traced (A : Type) : Type := (list call * result A)%type.

Definition ret {A : Type} (a : A) : traced A := ([], Ok a).

Definition bind {A B : Type} (m : traced A) (k : A -> traced B) : traced B :=
  match m with
  | (t, Ok a) => let '(t', r) := k a in (t ++ t', r)
  | (t, Raise e) => (t, Raise e)
  end.

Definition invoke {A : Type} (c : call) (r : result A) : traced A := ([c], r).

Notation "x <- m ;; k" := (bind m (fun x => k))
  (at level 61, m at next level, right associativity).

(** The same for plain results. *)
Definition rbind {A B : Type} (m : result A) (k : A -> result B) : result B :=
  match m with
  | Ok a => k a
  | Raise e => Raise e
  end.

Notation "x <-- m ;; k" := (rbind m (fun x => k))
  (at level 61, m at next level, right associativity).

(** The dictionary [calculate_statistics] returns. *)
Record stats_dict (F : Type) : Type := {
  mean : F;
  theoretical_mean : F;
  std_dev : F;
  min : Z;
  max : Z;
  unique_values : nat;
  total_samples : nat
}.

Arguments mean {F} _.
Arguments theoretical_mean {F} _.
Arguments std_dev {F} _.
Arguments min {F} _.
Arguments max {F} _.
Arguments unique_values {F} _.
Arguments total_samples {F} _.

(** Adds one to the entry at index [i]; nothing to do out of range. *)
Fixpoint incr_at (i : nat) (out : list Z) : list Z :=
  match out, i with
  | [], _ => []
  | c :: out', O => (c + 1) :: out'
  | c :: out', S i' => c :: incr_at i' out'
  end.

Definition amax (x : list Z) : Z := fold_right Z.max 0 x.

(** [np.bincount(x, minlength=...)]: a negative element is a [ValueError];
    the result has [max(amax(x) + 1, minlength)] entries, [minlength] of
    them when [x] is empty. *)
Definition np_bincount (x : list Z) (minlength : nat) : result (list Z) :=
  if existsb (fun v => v <? 0) x then Raise ValueError
  else
    let size :=
      match x with
      | [] => minlength
      | _ :: _ => Nat.max (Z.to_nat (amax x + 1)) minlength
      end in
    Ok (fold_left (fun out v => incr_at (Z.to_nat v) out) x (repeat 0 size)).

(** [np.full(shape, fill_value)] for one dimension. *)
Definition np_full {A : Type} (shape : nat) (fill_value : A) : list A :=
  repeat fill_value shape.

(** An arithmetic operator between two arrays of one dimension: an array of
    one element is stretched to the length of the other, otherwise the
    lengths must agree ([ValueError], "operands could not be broadcast"). *)
Definition broadcast2 {A B C : Type} (f : A -> B -> C)
    (xs : list A) (ys : list B) : result (list C) :=
  match xs, ys with
  | [x], _ => Ok (map (f x) ys)
  | _, [y] => Ok (map (fun x => f x y) xs)
  | _, _ =>
      if Nat.eqb (List.length xs) (List.length ys)
      then Ok (map (fun xy => f (fst xy) (snd xy)) (combine xs ys))
      else Raise ValueError
  end.

Section Pipeline.

Context {F : Type} {num : Numeric F}.

(** [a / b] between two Python integers, [b] not zero. *)
Definition true_divide (a b : Z) : F := fdiv (of_int a) (of_int b).

(** [np.sum] of a float64 array: the additions start from zero and run
    from left to right, which is NumPy's order for fewer than eight
    elements; for longer arrays NumPy groups them pairwise, which changes
    the rounding only. *)
Definition np_sum (a : list F) : F := fold_left fadd a (of_int 0).

(** [np.mean] of a list of integers: the float64 sum over the length; on
    the empty list NumPy warns and gives 0/0. *)
Definition np_mean (a : list Z) : F :=
  fdiv (np_sum (map of_int a)) (of_int (Z.of_nat (List.length a))).

(** [np.std(a, ddof=...)]: the mean, the squared differences from it, their
    sum over [max(N - ddof, 0)], and the square root. *)
Definition np_std_ddof (ddof : Z) (a : list Z) : F :=
  let arrmean := np_mean a in
  let x := map (fun v => fsub (of_int v) arrmean) a in
  let x := map (fun d => fmul d d) x in
  let rcount := Z.max (Z.of_nat (List.length a) - ddof) 0 in
  fsqrt (fdiv (np_sum x) (of_int rcount)).

(** [np.std(a)]: [ddof] defaults to 0. *)
Definition np_std (a : list Z) : F := np_std_ddof 0 a.

(** [np.min] and [np.max]: no identity, so [ValueError] on the empty list. *)
Definition np_min (a : list Z) : result Z :=
  match a with
  | [] => Raise ValueError
  | v :: a' => Ok (fold_left Z.min a' v)
  end.

Definition np_max (a : list Z) : result Z :=
  match a with
  | [] => Raise ValueError
  | v :: a' => Ok (fold_left Z.max a' v)
  end.

(** [calculate_statistics].  The number of qubits is a natural number (with
    a negative one [2**num_qubits] is a float, a case left out).  The
    entries of the dictionary display are evaluated in the order written. *)
Definition calculate_statistics (data : list Z) (num_qubits : nat)
  : traced (stats_dict F) :=
  let max_value := 2 ^ Z.of_nat num_qubits - 1 in
  mean_ <- invoke Call_mean (Ok (np_mean data)) ;;
  let theoretical_mean_ := true_divide max_value 2 in
  std_dev_ <- invoke Call_std (Ok (np_std data)) ;;
  min_ <- invoke Call_min (np_min data) ;;
  max_ <- invoke Call_max (np_max data) ;;
  ret {| mean := mean_;
         theoretical_mean := theoretical_mean_;
         std_dev := std_dev_;
         min := min_;
         max := max_;
         unique_values := List.length (nodup Z.eq_dec data);
         total_samples := List.length data |}.

(** [chi_square_test], returning [(chi_square_stat, p_value)]. *)
Definition chi_square_test (data : list Z) (num_qubits : nat)
  : result (F * F) :=
  let max_value := Nat.pow 2 num_qubits in
  let expected_freq :=
    true_divide (Z.of_nat (List.length data)) (Z.of_nat max_value) in
  observed_freq <-- np_bincount data max_value ;;
  let expected_freq_array := np_full max_value expected_freq in
  diff <-- broadcast2 (fun o e => fsub (of_int o) e)
             observed_freq expected_freq_array ;;
  let squared := map (fun d => fmul d d) diff in
  terms <-- broadcast2 fdiv squared expected_freq_array ;;
  let chi_square_stat := np_sum terms in
  let degrees_of_freedom := Z.of_nat max_value - 1 in
  let p_value :=
    fsub (of_int 1) (chi2_cdf chi_square_stat degrees_of_freedom) in
  Ok (chi_square_stat, p_value).

(** *** The specification's formulas *)

(** The observed frequency of the value [i]. *)
Definition observed (data : list Z) (i : nat) : Z :=
  Z.of_nat (count_occ Z.eq_dec data (Z.of_nat i)).

(** The statistic as the specification writes it: the sum over the bins
    [0 .. K-1] of [(O_i - E)^2 / E], with [E = N / K]. *)
Definition chi2_spec (data : list Z) (K : nat) : F :=
  let E := fdiv (of_int (Z.of_nat (List.length data))) (of_int (Z.of_nat K)) in
  np_sum (map (fun i =>
                 let d := fsub (of_int (observed data i)) E in
                 fdiv (fmul d d) E)
              (seq 0 K)).

(** The upper tail [1 - CDF(x, df)]. *)
Definition upper_tail (x : F) (df : Z) : F :=
  fsub (of_int 1) (chi2_cdf x df).

(** The standard deviation with divisor [d]. *)
Definition std_with_divisor (d : Z) (data : list Z) : F :=
  let N := Z.of_nat (List.length data) in
  let mu := fdiv (np_sum (map of_int data)) (of_int N) in
  fsqrt (fdiv (np_sum (map (fun v => fmul (fsub (of_int v) mu)
                                          (fsub (of_int v) mu)) data))
              (of_int d)).

Definition population_std (data : list Z) : F :=
  std_with_divisor (Z.of_nat (List.length data)) data.

Definition sample_std (data : list Z) : F :=
  std_with_divisor (Z.of_nat (List.length data) - 1) data.

End Pipeline.

(** ** Two readings of the arithmetic *)

Module Binary64.

(** The conversion of an integer of magnitude below [2^63] (an [int64]),
    rounded to the nearest float. *)
Definition of_int64 (z : Z) : PrimFloat.float :=
  if z <? 0
  then PrimFloat.opp (PrimFloat.of_uint63 (Uint63.of_Z (- z)))
  else PrimFloat.of_uint63 (Uint63.of_Z z).

(** IEEE 754 binary64, over a distribution function left open. *)
Definition numeric (cdf : PrimFloat.float -> Z -> PrimFloat.float)
  : Numeric PrimFloat.float :=
  {| of_int := of_int64;
     fadd := PrimFloat.add;
     fsub := PrimFloat.sub;
     fmul := PrimFloat.mul;
     fdiv := PrimFloat.div;
     fsqrt := PrimFloat.sqrt;
     chi2_cdf := cdf |}.

End Binary64.

Module Exact.

(** The same operations over the real numbers, that is, without rounding.
    The distribution function is left open here as well. *)
Definition numeric (cdf : Rdefinitions.R -> Z -> Rdefinitions.R)
  : Numeric Rdefinitions.R :=
  {| of_int := Rdefinitions.IZR;
     fadd := Rdefinitions.Rplus;
     fsub := Rdefinitions.Rminus;
     fmul := Rdefinitions.Rmult;
     fdiv := Rdefinitions.Rdiv;
     fsqrt := R_sqrt.sqrt;
     chi2_cdf := cdf |}.

End Exact.

(** ** Predicates of the claims *)

(** Every sample lies in [[0, 2^n - 1]]. *)
Definition in_range (n : nat) (data : list Z) : Prop :=
  Forall (fun v => 0 <= v <= 2 ^ Z.of_nat n - 1) data.

(** The input checks the specification asks of [expand]: some key is not a
    bit pattern of [n] digits, or some count is negative. *)
Definition malformed (n : nat) (counts : list (string * Z)) : bool :=
  existsb (fun kc => negb (bit_pattern n (fst kc)) || (snd kc <? 0)) counts.

(** A key that [int(key, 2)] accepts. *)
Definition parses (key : string) : bool := is_ok (PyInt.int_base2 key).

Definition sum_counts (counts : list (string * Z)) : Z :=
  fold_right (fun kc acc => snd kc + acc) 0 counts.

Definition sum_positive_counts (counts : list (string * Z)) : Z :=
  fold_right (fun kc acc => Z.max (snd kc) 0 + acc) 0 counts.

(** A computation that fails before it has called anything. *)
Definition fails_before_any_call {A : Type} (m : traced A) : Prop :=
  exists e, m = ([], Raise e).

(** ** The rest of the page: circuit, export and preview *)

(** What [create_qrng_circuit] appends to the empty circuit of [num_qubits]
    qubits and as many classical bits. *)
Inductive instruction : Type :=
| H_gate (qubit : nat)
| Measure (qubit clbit : nat).

(** [qc.measure(qubits, clbits)] pairs the two ranges off and appends one
    measurement per pair. *)
Definition qc_measure (qc : list instruction) (qubits clbits : list nat)
  : list instruction :=
  qc ++ map (fun qc_ => Measure (fst qc_) (snd qc_)) (combine qubits clbits).

Definition create_qrng_circuit (num_qubits : nat) : list instruction :=
  let qc := fold_left (fun qc qubit => qc ++ [H_gate qubit]) (seq 0 num_qubits) [] in
  qc_measure qc (seq 0 num_qubits) (seq 0 num_qubits).

(** [str(z)] of an integer: decimal digits, a minus sign when negative
    (Python refuses an integer of more than 4300 digits; the samples are far
    below). *)
Definition py_str (z : Z) : string :=
  DecimalString.NilZero.string_of_int (Z.to_int z).

(** [sep.join(parts)]. *)
Fixpoint join (sep : string) (parts : list string) : string :=
  match parts with
  | [] => EmptyString
  | [p] => p
  | p :: rest => p ++ sep ++ join sep rest
  end.

Definition newline : ascii := ascii_of_nat 10.

(** [enumerate(l)]: every element with its zero-based position. *)
Definition enumerate {A : Type} (l : list A) : list (Z * A) :=
  combine (map Z.of_nat (seq 0 (List.length l))) l.

(** The text export: one sample per line. *)
Definition data_string (random_numbers : list Z) : string :=
  join (String newline EmptyString) (map py_str random_numbers).

(** The CSV export: a header, then one [index,value] record per sample. *)
Definition csv_data (random_numbers : list Z) : string :=
  ("index,value" ++ String newline EmptyString)
  ++ join (String newline EmptyString)
       (map (fun iv => (py_str (fst iv) ++ "," ++ py_str (snd iv))%string)
            (enumerate random_numbers)).

(** [l[start:stop]] for [0 <= start <= stop]. *)
Definition slice {A : Type} (start stop : nat) (l : list A) : list A :=
  firstn (stop - start) (skipn start l).

(** [range(0, stop, step)] for [step > 0]. *)
Definition range_step (stop step : nat) : list nat :=
  map (fun k => k * step)%nat (seq 0 ((stop + step - 1) / step)).

(** [f"{val:3d}"]: the decimal digits, padded with blanks on the left to
    three characters. *)
Definition format_3d (val : Z) : string :=
  let s := py_str val in
  (string_of_list_ascii (repeat " "%char (3 - String.length s)) ++ s)%string.

(** The preview: the first [preview_size] samples, ten to a row. *)
Definition preview_chunks (random_numbers : list Z) (preview_size : nat)
  : list (list Z) :=
  let preview_data := firstn preview_size random_numbers in
  let cols_per_row := 10%nat in
  map (fun i => slice i (i + cols_per_row) preview_data)
      (range_step (List.length preview_data) cols_per_row).

Definition preview_rows (random_numbers : list Z) (preview_size : nat)
  : list string :=
  map (fun row => join " "%string (map format_3d row))
      (preview_chunks random_numbers preview_size).

(** *** Reading the exports back *)

(** [s.split(c)] for a separator of one character. *)
Fixpoint split_on (c : ascii) (s : string) : list string :=
  match s with
  | EmptyString => [EmptyString]
  | String a s' =>
      if Ascii.eqb a c then EmptyString :: split_on c s'
      else
        match split_on c s' with
        | h :: t => String a h :: t
        | [] => [String a EmptyString]
        end
  end.

Definition parse_int (s : string) : option Z :=
  option_map Z.of_int (DecimalString.NilZero.int_of_string s).

Fixpoint all_some {A : Type} (l : list (option A)) : option (list A) :=
  match l with
  | [] => Some []
  | Some a :: l' => option_map (cons a) (all_some l')
  | None :: _ => None
  end.

(** One integer per line; the empty text is the empty list. *)
Definition parse_txt (s : string) : option (list Z) :=
  match s with
  | EmptyString => Some []
  | _ => all_some (map parse_int (split_on newline s))
  end.

Definition parse_record (line : string) : option (Z * Z) :=
  match split_on ","%char line with
  | [i; v] =>
      match parse_int i, parse_int v with
      | Some i', Some v' => Some (i', v')
      | _, _ => None
      end
  | _ => None
  end.

(** The header, then one record per line; a header followed by one empty
    line is the empty list. *)
Definition parse_csv (s : string) : option (list (Z * Z)) :=
  match split_on newline s with
  | header :: body =>
      if String.eqb header "index,value"%string then
        match body with
        | [EmptyString] => Some []
        | _ => all_some (map parse_record body)
        end
      else None
  | [] => None
  end.

(** *** Sums and counts for the statements below *)

Definition sum_Z (l : list Z) : Z := fold_right Z.add 0 l.

(** The counts of the pairs whose key reads as [v], negative ones as zero. *)
Definition count_for (v : Z) (counts : list (string * Z)) : Z :=
  fold_right
    (fun kc acc =>
       match PyInt.int_base2 (fst kc) with
       | Ok u => if u =? v then Z.max (snd kc) 0 + acc else acc
       | Raise _ => acc
       end)
    0 counts.

(** The number of entries [np.bincount] gives for a list without negative
    elements. *)
Definition bincount_size (x : list Z) (minlength : nat) : nat :=
  match x with
  | [] => minlength
  | _ :: _ => Nat.max (Z.to_nat (amax x + 1)) minlength
  end.

(** The string has no occurrence of the character. *)
Fixpoint no_char (c : ascii) (s : string) : bool :=
  match s with
  | EmptyString => true
  | String a s' => negb (Ascii.eqb a c) && no_char c s'
  end.

Definition is_decimal (c : ascii) : bool :=
  let k := nat_of_ascii c in Nat.leb 48 k && Nat.leb k 57.

(** The sum of a list of real numbers. *)
Definition sum_R (l : list Rdefinitions.R) : Rdefinitions.R :=
  fold_right Rdefinitions.Rplus (Rdefinitions.IZR 0) l.

Definition is_H_gate (i : instruction) : bool :=
  match i with H_gate _ => true | Measure _ _ => false end.

Definition is_measure (i : instruction) : bool :=
  match i with H_gate _ => false | Measure _ _ => true end.

(** ** Examples *)

Example int_base2_101 : PyInt.int_base2 "101" = Ok 5.
Proof. reflexivity. Qed.

Example int_base2_prefix : PyInt.int_base2 " -0b_1_0 " = Ok (-2).
Proof. reflexivity. Qed.

Example int_base2_bad :
  map PyInt.int_base2 [EmptyString; "0b"; "1__0"; "1_"; "_1"; "12"; "1 0"; "0b__1"]%string
  = repeat (Raise ValueError) 8.
Proof. reflexivity. Qed.

Example expand_example :
  expand [("10", 2); ("01", 0); ("11", -3); ("00", 1)]%string = Ok [2; 2; 0].
Proof. reflexivity. Qed.

(** ** The parser on bit patterns *)

Lemma is_bit_cases (c : ascii) :
  is_bit c = true -> c = "0"%char \/ c = "1"%char.
Proof.
  unfold is_bit. intros H. apply orb_true_iff in H.
  destruct H as [H | H]; apply Ascii.eqb_eq in H; auto.
Qed.

Lemma scan_digits_bits (p : list ascii) :
  forallb is_bit p = true ->
  forall prev acc,
    PyInt.is_underscore prev = false ->
    PyInt.scan_digits p prev acc
    = Some (fold_left (fun a c => 2 * a + bit_of c) p acc, []).
Proof.
  induction p as [| c p IH]; intros Hbits prev acc Hprev; simpl.
  - now rewrite Hprev.
  - simpl in Hbits. apply andb_true_iff in Hbits. destruct Hbits as [Hc Hp].
    destruct (is_bit_cases c Hc) as [-> | ->]; simpl;
      rewrite (IH Hp) by reflexivity; reflexivity.
Qed.

Lemma long_from_string_bits (p : list ascii) :
  p <> [] -> forallb is_bit p = true ->
  PyInt.long_from_string p
  = Some (fold_left (fun a c => 2 * a + bit_of c) p 0).
Proof.
  intros Hne Hbits. destruct p as [| c p]; [congruence |].
  pose proof (scan_digits_bits (c :: p) Hbits Ascii.zero 0 eq_refl) as Hscan.
  simpl in Hbits. apply andb_true_iff in Hbits. destruct Hbits as [Hc Hp].
  assert (Hskip : PyInt.skip_prefix (c :: p) = c :: p).
  { destruct (is_bit_cases c Hc) as [-> | ->]; [| reflexivity].
    destruct p as [| d p]; [reflexivity |].
    simpl in Hp. apply andb_true_iff in Hp. destruct Hp as [Hd _].
    destruct (is_bit_cases d Hd) as [-> | ->]; reflexivity. }
  unfold PyInt.long_from_string.
  assert (Hsp : PyInt.skip_space (c :: p) = c :: p)
    by (destruct (is_bit_cases c Hc) as [-> | ->]; reflexivity).
  rewrite Hsp.
  assert (Hsign : PyInt.read_sign (c :: p) = (false, c :: p))
    by (destruct (is_bit_cases c Hc) as [-> | ->]; reflexivity).
  rewrite Hsign, Hskip.
  unfold PyInt.long_from_string_base. rewrite Hscan.
  destruct (is_bit_cases c Hc) as [-> | ->]; reflexivity.
Qed.

Lemma length_list_ascii_of_string (s : string) :
  List.length (list_ascii_of_string s) = String.length s.
Proof. induction s as [| c s IH]; simpl; congruence. Qed.

Lemma int_base2_bit_pattern (n : nat) (s : string) :
  (1 <= n)%nat -> bit_pattern n s = true ->
  PyInt.int_base2 s = Ok (bin_value s).
Proof.
  intros Hn Hpat. unfold bit_pattern in Hpat.
  apply andb_true_iff in Hpat. destruct Hpat as [Hlen Hbits].
  apply Nat.eqb_eq in Hlen.
  unfold PyInt.int_base2, bin_value.
  rewrite long_from_string_bits; [reflexivity | | exact Hbits].
  intros Hnil. apply (f_equal (@List.length ascii)) in Hnil.
  rewrite length_list_ascii_of_string in Hnil. simpl in Hnil. lia.
Qed.

Lemma horner_bound (p : list ascii) :
  forall acc, 0 <= acc ->
    let v := fold_left (fun a c => 2 * a + bit_of c) p acc in
    acc * 2 ^ Z.of_nat (List.length p) <= v
    < (acc + 1) * 2 ^ Z.of_nat (List.length p).
Proof.
  induction p as [| c p IH]; intros acc Hacc; cbn zeta.
  - simpl. lia.
  - cbn [fold_left List.length].
    assert (Hb : 0 <= bit_of c <= 1) by (unfold bit_of; destruct (Ascii.eqb c "1"); lia).
    specialize (IH (2 * acc + bit_of c) ltac:(lia)). cbn zeta in IH.
    rewrite Nat2Z.inj_succ, Z.pow_succ_r by lia.
    set (P := 2 ^ Z.of_nat (List.length p)) in *.
    assert (0 < P) by (apply Z.pow_pos_nonneg; lia).
    nia.
Qed.

Lemma bin_value_range (n : nat) (s : string) :
  bit_pattern n s = true -> 0 <= bin_value s <= 2 ^ Z.of_nat n - 1.
Proof.
  intros Hpat. unfold bit_pattern in Hpat.
  apply andb_true_iff in Hpat. destruct Hpat as [Hlen _].
  apply Nat.eqb_eq in Hlen.
  pose proof (horner_bound (list_ascii_of_string s) 0 ltac:(lia)) as H.
  cbn zeta in H. rewrite length_list_ascii_of_string, Hlen in H.
  unfold bin_value. lia.
Qed.

(** ** The expansion loop *)

Lemma int_base2_error (key : string) (e : exn) :
  PyInt.int_base2 key = Raise e -> e = ValueError.
Proof.
  unfold PyInt.int_base2.
  destruct (PyInt.long_from_string _); congruence.
Qed.

Lemma length_list_mul (v count : Z) :
  Z.of_nat (List.length (list_mul v count)) = Z.max count 0.
Proof. unfold list_mul. rewrite repeat_length. lia. Qed.

(** What the loop does from any state: the error is the parser's and some
    key is at fault, or all keys parse and the list grew by the positive
    counts. *)
Lemma expand_loop_spec (items : list (string * Z)) :
  forall random_numbers,
    match expand_loop items random_numbers with
    | Ok l =>
        forallb (fun kc => parses (fst kc)) items = true /\
        Z.of_nat (List.length l)
        = Z.of_nat (List.length random_numbers) + sum_positive_counts items
    | Raise e =>
        e = ValueError /\
        existsb (fun kc => negb (parses (fst kc))) items = true
    end.
Proof.
  induction items as [| [key count] rest IH]; intros acc; simpl.
  - split; [reflexivity | lia].
  - unfold parses at 1 3.
    destruct (PyInt.int_base2 key) as [v | e] eqn:Hkey; simpl.
    + specialize (IH (acc ++ list_mul v count)).
      destruct (expand_loop rest (acc ++ list_mul v count)) as [l | e].
      * destruct IH as [Hall Hlen]. split; [exact Hall |].
        rewrite Hlen, length_app, Nat2Z.inj_add, length_list_mul. lia.
      * exact IH.
    + split; [exact (int_base2_error _ _ Hkey) | reflexivity].
Qed.

Lemma expand_loop_bit_patterns (n : nat) (items : list (string * Z)) :
  (1 <= n)%nat ->
  forallb (fun kc => bit_pattern n (fst kc)) items = true ->
  forall random_numbers,
    expand_loop items random_numbers
    = Ok (random_numbers
          ++ flat_map (fun kc => list_mul (bin_value (fst kc)) (snd kc)) items).
Proof.
  intros Hn. induction items as [| [key count] rest IH]; intros Hall acc; simpl.
  - now rewrite app_nil_r.
  - simpl in Hall. apply andb_true_iff in Hall. destruct Hall as [Hkey Hrest].
    rewrite (int_base2_bit_pattern n key Hn Hkey).
    rewrite (IH Hrest). now rewrite <- app_assoc.
Qed.

Lemma length_flat_map_counts (items : list (string * Z)) (f : string -> Z) :
  Z.of_nat (List.length (flat_map (fun kc => list_mul (f (fst kc)) (snd kc)) items))
  = sum_positive_counts items.
Proof.
  induction items as [| [key count] rest IH]; simpl; [reflexivity |].
  rewrite length_app, Nat2Z.inj_add, length_list_mul, IH. reflexivity.
Qed.

Lemma sum_positive_counts_nonneg (items : list (string * Z)) :
  forallb (fun kc => 0 <=? snd kc) items = true ->
  sum_positive_counts items = sum_counts items.
Proof.
  induction items as [| [key count] rest IH]; simpl; [reflexivity |].
  intros H. apply andb_true_iff in H. destruct H as [Hc Hrest].
  apply Z.leb_le in Hc. rewrite (IH Hrest). lia.
Qed.

Lemma existsb_negb_forallb {A : Type} (p : A -> bool) (l : list A) :
  existsb (fun a => negb (p a)) l = negb (forallb p l).
Proof.
  induction l as [| a l IH]; simpl; [reflexivity |].
  rewrite IH. now destruct (p a).
Qed.





Lemma in_range_flat_map (n : nat) (counts : list (string * Z)) :
  forallb (fun kc => bit_pattern n (fst kc)) counts = true ->
  in_range n (flat_map (fun kc => list_mul (bin_value (fst kc)) (snd kc)) counts).
Proof.
  unfold in_range.
  induction counts as [| [key count] rest IH]; simpl; intros Hall.
  - constructor.
  - apply andb_true_iff in Hall. destruct Hall as [Hkey Hrest].
    apply Forall_app. split; [| exact (IH Hrest)].
    apply Forall_forall. intros v Hv.
    apply repeat_spec in Hv. subst v. exact (bin_value_range n key Hkey).
Qed.

(** C6: when every key is a bit pattern of [n] digits, every sample the
    expansion gives lies in [[0, 2^n - 1]]; and it does give a list as soon as
    [n >= 1]. *)
Theorem expand_range (n : nat) (counts : list (string * Z)) :
  forallb (fun kc => bit_pattern n (fst kc)) counts = true ->
  (forall l, expand counts = Ok l -> in_range n l) /\
  ((1 <= n)%nat -> is_ok (expand counts) = true).
Proof.
  intros Hkeys.
  destruct (Nat.le_gt_cases 1 n) as [Hn | Hn].
  - unfold expand. rewrite (expand_loop_bit_patterns n counts Hn Hkeys). simpl.
    split; [| reflexivity].
    intros l [= <-]. exact (in_range_flat_map n counts Hkeys).
  - split; [| lia].
    assert (n = 0%nat) as -> by lia.
    destruct counts as [| [key count] rest].
    + intros l [= <-]. constructor.
    + simpl in Hkeys. apply andb_true_iff in Hkeys. destruct Hkeys as [Hkey _].
      unfold bit_pattern in Hkey. apply andb_true_iff in Hkey.
      destruct Hkey as [Hlen _]. apply Nat.eqb_eq in Hlen.
      destruct key; [| discriminate]. intros l Hl. discriminate.
Qed.

Lemma expand_range_witness :
  (forall l, expand [("10"%string, 2); ("11"%string, 1)] = Ok l -> in_range 2 l) /\
  ((1 <= 2)%nat -> is_ok (expand [("10"%string, 2); ("11"%string, 1)]) = true).
Proof. apply (expand_range 2). reflexivity. Defined.


(** ** Counting into bins *)

Lemma length_incr_at (i : nat) (out : list Z) :
  List.length (incr_at i out) = List.length out.
Proof.
  revert i. induction out as [| c out IH]; intros [| i]; simpl; auto.
Qed.

Lemma nth_incr_at (i j : nat) (out : list Z) :
  (i < List.length out)%nat ->
  nth j (incr_at i out) 0 = nth j out 0 + (if Nat.eqb i j then 1 else 0).
Proof.
  revert i j. induction out as [| c out IH]; intros i j Hi; simpl in Hi; [lia |].
  destruct i as [| i], j as [| j]; simpl; try lia.
  apply IH. lia.
Qed.

Lemma length_fold_incr (x : list Z) :
  forall out,
    List.length (fold_left (fun o v => incr_at (Z.to_nat v) o) x out)
    = List.length out.
Proof.
  induction x as [| v x IH]; intros out; simpl; [reflexivity |].
  rewrite IH. apply length_incr_at.
Qed.

Lemma nth_fold_incr (x : list Z) (j : nat) :
  forall out,
    Forall (fun v => 0 <= v < Z.of_nat (List.length out)) x ->
    nth j (fold_left (fun o v => incr_at (Z.to_nat v) o) x out) 0
    = nth j out 0 + Z.of_nat (count_occ Z.eq_dec x (Z.of_nat j)).
Proof.
  induction x as [| v x IH]; intros out Hx; simpl; [lia |].
  inversion Hx as [| ? ? Hv Hrest]; subst.
  rewrite IH by (rewrite length_incr_at; exact Hrest).
  rewrite nth_incr_at by lia.
  destruct (Z.eq_dec v (Z.of_nat j)) as [-> | Hne].
  - rewrite Nat2Z.id, Nat.eqb_refl. lia.
  - destruct (Nat.eqb_spec (Z.to_nat v) j) as [<- | _]; [| lia].
    rewrite Z2Nat.id in Hne by lia. congruence.
Qed.

Lemma amax_upper (x : list Z) (b : Z) :
  0 <= b -> Forall (fun v => v <= b) x -> amax x <= b.
Proof.
  intros Hb. induction 1 as [| v x Hv _ IH]; simpl; lia.
Qed.

Lemma existsb_negative_false (x : list Z) :
  Forall (fun v => 0 <= v) x -> existsb (fun v => v <? 0) x = false.
Proof.
  induction 1 as [| v x Hv _ IH]; simpl; [reflexivity |].
  rewrite IH. destruct (Z.ltb_spec v 0); [lia | reflexivity].
Qed.

Lemma pow2_nat_Z (n : nat) : Z.of_nat (Nat.pow 2 n) = 2 ^ Z.of_nat n.
Proof.
  induction n as [| n IH]; [reflexivity |].
  rewrite Nat2Z.inj_succ, Z.pow_succ_r by lia.
  rewrite Nat.pow_succ_r', Nat2Z.inj_mul, IH. reflexivity.
Qed.

(** On samples in range, [np.bincount] gives exactly one entry per value
    [0 .. 2^n - 1]: the observed frequency of that value. *)
Lemma np_bincount_in_range (n : nat) (data : list Z) :
  in_range n data ->
  np_bincount data (Nat.pow 2 n)
  = Ok (map (observed data) (seq 0 (Nat.pow 2 n))).
Proof.
  intros Hr. unfold in_range in Hr. unfold np_bincount.
  pose proof (pow2_nat_Z n) as HK.
  set (K := Nat.pow 2 n) in *.
  rewrite existsb_negative_false
    by (eapply Forall_impl; [| exact Hr]; simpl; intros; lia).
  assert (HKpos : (1 <= K)%nat).
  { assert (0 < 2 ^ Z.of_nat n) by (apply Z.pow_pos_nonneg; lia). lia. }
  assert (Hsize : match data with
                  | [] => K
                  | _ :: _ => Nat.max (Z.to_nat (amax data + 1)) K
                  end = K).
  { destruct data as [| v data']; [reflexivity |].
    assert (amax (v :: data') <= 2 ^ Z.of_nat n - 1).
    { apply amax_upper; [lia |].
      eapply Forall_impl; [| exact Hr]. simpl; intros; lia. }
    lia. }
  rewrite Hsize. f_equal.
  apply (nth_ext _ _ 0 0).
  - rewrite length_fold_incr, repeat_length, length_map, length_seq. reflexivity.
  - intros j Hj. rewrite length_fold_incr, repeat_length in Hj.
    rewrite nth_fold_incr.
    + rewrite nth_repeat.
      rewrite (nth_indep _ 0 (observed data 0))
        by (rewrite length_map, length_seq; exact Hj).
      rewrite map_nth, seq_nth by exact Hj. reflexivity.
    + rewrite repeat_length. eapply Forall_impl; [| exact Hr].
      simpl; intros; lia.
Qed.

Lemma combine_repeat_map {A B C : Type} (f : A -> B -> C) (xs : list A) (e : B) :
  map (fun xy => f (fst xy) (snd xy)) (combine xs (repeat e (List.length xs)))
  = map (fun x => f x e) xs.
Proof. induction xs as [| x xs IH]; simpl; congruence. Qed.

(** An array against a constant array of its own length. *)
Lemma broadcast2_full {A B C : Type} (f : A -> B -> C)
    (xs : list A) (k : nat) (e : B) :
  List.length xs = k ->
  broadcast2 f xs (np_full k e) = Ok (map (fun x => f x e) xs).
Proof.
  intros <-. unfold broadcast2, np_full.
  destruct xs as [| x1 [| x2 xs]]; try reflexivity.
  cbn [List.length repeat].
  rewrite <- (combine_repeat_map f (x1 :: x2 :: xs) e).
  cbn [List.length repeat]. rewrite repeat_length, Nat.eqb_refl. reflexivity.
Qed.

(** ** The chi-square test *)

Section ChiSquare.

Context {F : Type} {num : Numeric F}.

(** On samples in range, for any number of qubits and the empty list
    included, the test raises nothing and returns the specification's
    statistic with its upper tail. *)
Lemma chi_square_test_in_range (n : nat) (data : list Z) :
  in_range n data ->
  chi_square_test data n
  = Ok (chi2_spec data (Nat.pow 2 n),
        upper_tail (chi2_spec data (Nat.pow 2 n)) (2 ^ Z.of_nat n - 1)).
Proof.
  intros Hr. unfold chi_square_test.
  rewrite (np_bincount_in_range n data Hr). cbn [rbind].
  set (K := Nat.pow 2 n).
  set (E := true_divide (Z.of_nat (List.length data)) (Z.of_nat K)).
  rewrite broadcast2_full by (rewrite length_map, length_seq; reflexivity).
  cbn [rbind].
  rewrite broadcast2_full by (rewrite !length_map, length_seq; reflexivity).
  cbn [rbind].
  unfold chi2_spec, upper_tail. fold K. fold E.
  rewrite !map_map. unfold K at 3. rewrite pow2_nat_Z.
  reflexivity.
Qed.

Lemma chi_square_test_in_range_ok (n : nat) (data : list Z) :
  in_range n data -> is_ok (chi_square_test data n) = true.
Proof. intros Hr. now rewrite chi_square_test_in_range. Qed.

End ChiSquare.





Lemma filter_nil_Forall {A : Type} (p : A -> bool) (l : list A) :
  filter p l = [] -> Forall (fun a => p a = false) l.
Proof.
  induction l as [| a l IH]; simpl; intros H; [constructor |].
  destruct (p a) eqn:Hp; [discriminate |]. constructor; auto.
Qed.

(** The values [0 .. 3] and the rest share out the list. *)
Lemma length_by_value4 (l : list Z) :
  Z.of_nat (List.length l)
  = observed l 0 + observed l 1 + observed l 2 + observed l 3
    + Z.of_nat (List.length
                  (filter (fun v => negb ((0 <=? v) && (v <=? 3))) l)).
Proof.
  unfold observed. induction l as [| v l IH]; [reflexivity |].
  cbn [List.length count_occ filter].
  rewrite Nat2Z.inj_succ, IH. cbn [Z.of_nat].
  repeat match goal with
         | |- context [Z.eq_dec v ?c] => destruct (Z.eq_dec v c); try lia
         end;
    destruct (Z.leb_spec 0 v); destruct (Z.leb_spec v 3);
    cbn [andb negb List.length]; lia.
Qed.

Lemma in_range_of_counts4 (data : list Z) :
  List.length data = 8%nat ->
  map (observed data) (seq 0 4) = [2; 2; 2; 2] ->
  in_range 2 data.
Proof.
  intros Hlen Hobs. cbn [seq map] in Hobs.
  injection Hobs as H0 H1 H2 H3.
  pose proof (length_by_value4 data) as Hsum.
  change (Z.of_nat 0) with 0 in H0. change (Z.of_nat 1) with 1 in H1.
  change (Z.of_nat 2) with 2 in H2. change (Z.of_nat 3) with 3 in H3.
  assert (Hnil : filter (fun v => negb ((0 <=? v) && (v <=? 3))) data = []).
  { apply length_zero_iff_nil. lia. }
  apply filter_nil_Forall in Hnil. unfold in_range.
  eapply Forall_impl; [| exact Hnil]. cbn beta. intros v Hv.
  apply negb_false_iff, andb_true_iff in Hv. destruct Hv as [Ha Hb].
  apply Z.leb_le in Ha, Hb. change (2 ^ Z.of_nat 2 - 1) with 3. lia.
Qed.

(** C8: for [n = 2] and any list of eight samples with observed counts
    [[2, 2, 2, 2]], the float64 statistic is exactly 0 and the p-value
    exactly 1, the distribution function being 0 at 0. *)
Theorem chi_square_uniform_exact
    (cdf : PrimFloat.float -> Z -> PrimFloat.float) (data : list Z) :
  cdf PrimFloat.zero 3 = PrimFloat.zero ->
  List.length data = 8%nat ->
  map (observed data) (seq 0 4) = [2; 2; 2; 2] ->
  @chi_square_test _ (Binary64.numeric cdf) data 2
  = Ok (PrimFloat.zero, PrimFloat.one).
Proof.
  intros Hcdf Hlen Hobs.
  rewrite (chi_square_test_in_range 2 data (in_range_of_counts4 data Hlen Hobs)).
  unfold chi2_spec, upper_tail. rewrite Hlen.
  change (Nat.pow 2 2) with 4%nat.
  rewrite <- (map_map (observed data)
                (fun o => let d := fsub (of_int o) _ in fdiv (fmul d d) _)).
  rewrite Hobs. vm_compute in Hcdf |- *. rewrite Hcdf. reflexivity.
Qed.

Lemma chi_square_uniform_exact_witness :
  @chi_square_test _ (Binary64.numeric (fun _ _ => PrimFloat.zero))
    [0; 1; 2; 3; 3; 2; 1; 0] 2
  = Ok (PrimFloat.zero, PrimFloat.one).
Proof.
  apply chi_square_uniform_exact; reflexivity.
Defined.

(** ** Descriptive statistics *)

Section Describe.

Context {F : Type} {num : Numeric F}.

Lemma calculate_statistics_nonempty (v : Z) (a : list Z) (n : nat) :
  calculate_statistics (v :: a) n
  = ([Call_mean; Call_std; Call_min; Call_max],
     Ok {| mean := np_mean (v :: a);
           theoretical_mean := true_divide (2 ^ Z.of_nat n - 1) 2;
           std_dev := np_std (v :: a);
           min := fold_left Z.min a v;
           max := fold_left Z.max a v;
           unique_values := List.length (nodup Z.eq_dec (v :: a));
           total_samples := List.length (v :: a) |}).
Proof. reflexivity. Qed.

Lemma np_std_population (data : list Z) :
  np_std data = population_std data.
Proof.
  unfold np_std, np_std_ddof, population_std, std_with_divisor, np_mean.
  rewrite map_map, Z.sub_0_r, Z.max_l by lia. reflexivity.
Qed.

End Describe.





(** The divisor matters: at binary64 the two deviations of [[0, 0, 1]]
    differ, and the entry is the one with divisor [N]. *)
Example std_dev_not_sample :
  PrimFloat.eqb
    (@population_std _ (Binary64.numeric (fun _ _ => PrimFloat.zero)) [0; 0; 1])
    (@sample_std _ (Binary64.numeric (fun _ _ => PrimFloat.zero)) [0; 0; 1])
  = false.
Proof. vm_compute. reflexivity. Qed.

(** ** Order of the samples *)

Lemma fold_left_permutation {A B : Type} (f : A -> B -> A) (l l' : list B) :
  (forall a x y, f (f a x) y = f (f a y) x) ->
  Permutation l l' -> forall a, fold_left f l a = fold_left f l' a.
Proof.
  intros Hswap. induction 1 as [| x l l' _ IH | x y l | l l' l'' _ IH1 _ IH2];
    intros a; simpl.
  - reflexivity.
  - apply IH.
  - now rewrite Hswap.
  - now rewrite IH1.
Qed.

Lemma incr_at_swap (i j : nat) (out : list Z) :
  incr_at j (incr_at i out) = incr_at i (incr_at j out).
Proof.
  revert i j. induction out as [| c out IH]; intros [| i] [| j]; simpl;
    try reflexivity.
  now rewrite IH.
Qed.

Lemma existsb_permutation {A : Type} (p : A -> bool) (l l' : list A) :
  Permutation l l' -> existsb p l = existsb p l'.
Proof.
  induction 1 as [| x l l' _ IH | x y l | l l' l'' _ IH1 _ IH2]; simpl.
  - reflexivity.
  - now rewrite IH.
  - now destruct (p x), (p y).
  - now rewrite IH1.
Qed.

Lemma amax_permutation (l l' : list Z) :
  Permutation l l' -> amax l = amax l'.
Proof.
  induction 1 as [| x l l' _ IH | x y l | l l' l'' _ IH1 _ IH2]; simpl; lia.
Qed.

Lemma np_bincount_permutation (data data' : list Z) (minlength : nat) :
  Permutation data data' ->
  np_bincount data' minlength = np_bincount data minlength.
Proof.
  intros Hp. unfold np_bincount.
  rewrite <- (existsb_permutation _ _ _ Hp).
  destruct (existsb (fun v => v <? 0) data); [reflexivity |].
  f_equal.
  assert (Hsize : match data' with
                  | [] => minlength
                  | _ :: _ => Nat.max (Z.to_nat (amax data' + 1)) minlength
                  end
                  = match data with
                    | [] => minlength
                    | _ :: _ => Nat.max (Z.to_nat (amax data + 1)) minlength
                    end).
  { rewrite <- (amax_permutation _ _ Hp).
    destruct data as [| v a], data' as [| v' a']; try reflexivity.
    - apply Permutation_nil in Hp. discriminate.
    - apply Permutation_sym, Permutation_nil in Hp. discriminate. }
  rewrite Hsize. symmetry. apply fold_left_permutation; [| exact Hp].
  intros a x y. apply incr_at_swap.
Qed.

(** The smallest element is in the list and below every element. *)
Lemma fold_left_min_spec (a : list Z) :
  forall v,
    In (fold_left Z.min a v) (v :: a) /\
    Forall (fun x => fold_left Z.min a v <= x) (v :: a).
Proof.
  induction a as [| x a IH]; intros v; simpl.
  - split; [auto | repeat constructor; lia].
  - destruct (IH (Z.min v x)) as [Hin Hall].
    inversion Hall as [| ? ? Hhd Htl]; subst. split.
    + destruct Hin as [Hin | Hin]; [| auto].
      destruct (Z.min_spec v x) as [[_ Hm] | [_ Hm]]; rewrite Hm in *; auto.
    + constructor; [lia |]. constructor; [lia | exact Htl].
Qed.

Lemma fold_left_max_spec (a : list Z) :
  forall v,
    In (fold_left Z.max a v) (v :: a) /\
    Forall (fun x => x <= fold_left Z.max a v) (v :: a).
Proof.
  induction a as [| x a IH]; intros v; simpl.
  - split; [auto | repeat constructor; lia].
  - destruct (IH (Z.max v x)) as [Hin Hall].
    inversion Hall as [| ? ? Hhd Htl]; subst. split.
    + destruct Hin as [Hin | Hin]; [| auto].
      destruct (Z.max_spec v x) as [[_ Hm] | [_ Hm]]; rewrite Hm in *; auto.
    + constructor; [lia |]. constructor; [lia | exact Htl].
Qed.

Lemma fold_left_min_permutation (v v' : Z) (a a' : list Z) :
  Permutation (v :: a) (v' :: a') ->
  fold_left Z.min a' v' = fold_left Z.min a v.
Proof.
  intros Hp.
  destruct (fold_left_min_spec a v) as [Hin Hall].
  destruct (fold_left_min_spec a' v') as [Hin' Hall'].
  rewrite Forall_forall in Hall, Hall'.
  apply (Permutation_in _ Hp) in Hin.
  apply (Permutation_in _ (Permutation_sym Hp)) in Hin'.
  specialize (Hall _ Hin'). specialize (Hall' _ Hin). lia.
Qed.

Lemma fold_left_max_permutation (v v' : Z) (a a' : list Z) :
  Permutation (v :: a) (v' :: a') ->
  fold_left Z.max a' v' = fold_left Z.max a v.
Proof.
  intros Hp.
  destruct (fold_left_max_spec a v) as [Hin Hall].
  destruct (fold_left_max_spec a' v') as [Hin' Hall'].
  rewrite Forall_forall in Hall, Hall'.
  apply (Permutation_in _ Hp) in Hin.
  apply (Permutation_in _ (Permutation_sym Hp)) in Hin'.
  specialize (Hall _ Hin'). specialize (Hall' _ Hin). lia.
Qed.

Lemma length_nodup_permutation (l l' : list Z) :
  Permutation l l' ->
  List.length (nodup Z.eq_dec l') = List.length (nodup Z.eq_dec l).
Proof.
  intros Hp. apply Permutation_length, NoDup_Permutation.
  - apply NoDup_nodup.
  - apply NoDup_nodup.
  - intros x. rewrite !nodup_In. split; apply Permutation_in;
      [apply Permutation_sym |]; exact Hp.
Qed.

Section Order.

Context {F : Type} {num : Numeric F}.

(** The test reads the samples through [len] and [np.bincount] only, so
    their order does not reach it, whatever the arithmetic. *)
Lemma chi_square_test_permutation (data data' : list Z) (n : nat) :
  Permutation data data' ->
  chi_square_test data' n = chi_square_test data n.
Proof.
  intros Hp. unfold chi_square_test.
  rewrite (np_bincount_permutation _ _ _ Hp).
  rewrite <- (Permutation_length Hp). reflexivity.
Qed.

(** Addition without rounding: the order of a sum does not matter. *)
Hypothesis fadd_comm : forall x y : F, fadd x y = fadd y x.
Hypothesis fadd_assoc : forall x y z : F, fadd x (fadd y z) = fadd (fadd x y) z.

Lemma np_sum_permutation (a a' : list F) :
  Permutation a a' -> np_sum a' = np_sum a.
Proof.
  intros Hp. unfold np_sum. symmetry.
  apply fold_left_permutation; [| exact Hp].
  intros acc x y.
  now rewrite <- !fadd_assoc, (fadd_comm x y).
Qed.

Lemma np_mean_permutation (a a' : list Z) :
  Permutation a a' -> np_mean a' = np_mean a.
Proof.
  intros Hp. unfold np_mean.
  rewrite (np_sum_permutation _ _ (Permutation_map of_int Hp)).
  now rewrite <- (Permutation_length Hp).
Qed.

Lemma np_std_permutation (a a' : list Z) :
  Permutation a a' -> np_std a' = np_std a.
Proof.
  intros Hp. unfold np_std, np_std_ddof.
  rewrite (np_mean_permutation _ _ Hp), <- (Permutation_length Hp).
  do 2 f_equal. apply np_sum_permutation.
  now do 2 apply Permutation_map.
Qed.

End Order.




(** ** More on the chi-square test: which inputs it accepts *)

Lemma amax_ge (x : list Z) : Forall (fun v => v <= amax x) x.
Proof.
  induction x as [| v x IH]; simpl; constructor; [lia |].
  eapply Forall_impl; [| exact IH]. simpl. intros; lia.
Qed.

Lemma amax_nonneg (x : list Z) : 0 <= amax x.
Proof. induction x as [| v x IH]; simpl; lia. Qed.

Lemma existsb_negative_false_inv (x : list Z) :
  existsb (fun v => v <? 0) x = false -> Forall (fun v => 0 <= v) x.
Proof.
  induction x as [| v x IH]; simpl; intros H; constructor.
  - apply orb_false_iff in H. destruct H as [H _]. apply Z.ltb_ge in H. exact H.
  - apply IH. apply orb_false_iff in H. tauto.
Qed.

Lemma np_bincount_nonneg (x : list Z) (minlength : nat) :
  Forall (fun v => 0 <= v) x ->
  exists counts,
    np_bincount x minlength = Ok counts /\
    List.length counts = bincount_size x minlength /\
    forall j, nth j counts 0 = Z.of_nat (count_occ Z.eq_dec x (Z.of_nat j)).
Proof.
  intros Hx. unfold np_bincount. rewrite (existsb_negative_false x Hx).
  fold (bincount_size x minlength).
  eexists. split; [reflexivity |]. split.
  - now rewrite length_fold_incr, repeat_length.
  - intros j. rewrite nth_fold_incr.
    + rewrite nth_repeat. lia.
    + rewrite repeat_length.
      pose proof (amax_ge x) as Hmax.
      rewrite Forall_forall in *. intros v Hv.
      specialize (Hx v Hv). specialize (Hmax v Hv).
      destruct x as [| w x']; [destruct Hv |].
      unfold bincount_size. lia.
Qed.

Lemma np_bincount_negative (x : list Z) (minlength : nat) :
  ~ Forall (fun v => 0 <= v) x -> np_bincount x minlength = Raise ValueError.
Proof.
  intros Hx. unfold np_bincount.
  destruct (existsb (fun v => v <? 0) x) eqn:Hneg; [reflexivity |].
  exfalso. apply Hx. now apply existsb_negative_false_inv.
Qed.

Lemma broadcast2_error {A B C : Type} (f : A -> B -> C)
    (xs : list A) (ys : list B) (e : exn) :
  broadcast2 f xs ys = Raise e -> e = ValueError.
Proof.
  unfold broadcast2.
  destruct xs as [| x1 [| x2 xs]], ys as [| y1 [| y2 ys]];
    try discriminate;
    (destruct (Nat.eqb _ _); [discriminate | intros [= <-]; reflexivity]).
Qed.

Lemma broadcast2_mismatch {A B C : Type} (f : A -> B -> C)
    (xs : list A) (ys : list B) :
  (2 <= List.length ys)%nat -> (List.length ys < List.length xs)%nat ->
  broadcast2 f xs ys = Raise ValueError.
Proof.
  intros Hy Hx. unfold broadcast2.
  destruct xs as [| x1 [| x2 xs]], ys as [| y1 [| y2 ys]]; simpl in *; try lia.
  destruct (Nat.eqb_spec (List.length xs) (List.length ys)); [lia | reflexivity].
Qed.

Lemma broadcast2_one {A B C : Type} (f : A -> B -> C) (xs : list A) (y : B) :
  broadcast2 f xs [y] = Ok (map (fun x => f x y) xs).
Proof. destruct xs as [| x1 [| x2 xs]]; reflexivity. Qed.

Section ChiSquareInputs.

Context {F : Type} {num : Numeric F}.

Lemma chi_square_test_error (data : list Z) (n : nat) (e : exn) :
  chi_square_test data n = Raise e -> e = ValueError.
Proof.
  unfold chi_square_test, np_bincount.
  destruct (existsb (fun v => v <? 0) data); [intros [= <-]; reflexivity |].
  cbn [rbind].
  match goal with
  | |- context [rbind (broadcast2 ?f ?xs ?ys)] =>
      destruct (broadcast2 f xs ys) as [diff | e1] eqn:H1
  end; cbn [rbind].
  - match goal with
    | |- context [rbind (broadcast2 ?f ?xs ?ys)] =>
        destruct (broadcast2 f xs ys) as [terms | e2] eqn:H2
    end; cbn [rbind]; [discriminate |].
    intros [= <-]. exact (broadcast2_error _ _ _ _ H2).
  - intros [= <-]. exact (broadcast2_error _ _ _ _ H1).
Qed.

Lemma in_range_of_ok (data : list Z) (n : nat) :
  (1 <= n)%nat -> is_ok (chi_square_test data n) = true -> in_range n data.
Proof.
  intros Hn Hok. unfold chi_square_test in Hok.
  assert (Hnn : Forall (fun v => 0 <= v) data).
  { apply existsb_negative_false_inv. unfold np_bincount in Hok.
    destruct (existsb (fun v => v <? 0) data); [discriminate | reflexivity]. }
  destruct (np_bincount_nonneg data (Nat.pow 2 n) Hnn) as (counts & Hb & Hlen & _).
  rewrite Hb in Hok. cbn [rbind] in Hok.
  pose proof (pow2_nat_Z n) as HK.
  assert (HK2 : (2 <= Nat.pow 2 n)%nat).
  { destruct n as [| n]; [lia |]. rewrite Nat.pow_succ_r'.
    assert (1 <= Nat.pow 2 n)%nat; [| lia].
    clear. induction n; simpl; lia. }
  destruct (Nat.lt_ge_cases (Nat.pow 2 n) (List.length counts)) as [Hlt | Hge].
  - rewrite broadcast2_mismatch in Hok;
      [discriminate | unfold np_full; rewrite repeat_length; lia
      | unfold np_full; rewrite repeat_length; exact Hlt].
  - rewrite Hlen in Hge. unfold in_range.
    pose proof (amax_ge data) as Hmax. rewrite Forall_forall in *.
    intros v Hv. specialize (Hnn v Hv). specialize (Hmax v Hv).
    destruct data as [| w data']; [destruct Hv |].
    unfold bincount_size in Hge. lia.
Qed.

End ChiSquareInputs.




(** ** The observed frequencies *)

Lemma sum_Z_incr_at (i : nat) (out : list Z) :
  (i < List.length out)%nat -> sum_Z (incr_at i out) = sum_Z out + 1.
Proof.
  revert i. induction out as [| c out IH]; intros i Hi; simpl in Hi; [lia |].
  destruct i as [| i]; simpl; [lia |].
  rewrite IH by lia. lia.
Qed.

Lemma sum_Z_fold_incr (x : list Z) :
  forall out,
    Forall (fun v => 0 <= v < Z.of_nat (List.length out)) x ->
    sum_Z (fold_left (fun o v => incr_at (Z.to_nat v) o) x out)
    = sum_Z out + Z.of_nat (List.length x).
Proof.
  induction x as [| v x IH]; intros out Hx; simpl fold_left; [simpl; lia |].
  inversion Hx as [| ? ? Hv Hrest]; subst.
  rewrite IH by (rewrite length_incr_at; exact Hrest).
  rewrite sum_Z_incr_at by lia. cbn [List.length]. lia.
Qed.

Lemma sum_Z_repeat_zero (k : nat) : sum_Z (repeat 0 k) = 0.
Proof. induction k as [| k IH]; simpl; lia. Qed.



(** ** More on the statistics *)





(** ** More on the expansion loop *)

Lemma expand_loop_acc (items : list (string * Z)) :
  forall acc,
    expand_loop items acc = (l <-- expand_loop items [] ;; Ok (acc ++ l)).
Proof.
  induction items as [| [key count] rest IH]; intros acc; simpl.
  - now rewrite app_nil_r.
  - destruct (PyInt.int_base2 key) as [v | e]; [| reflexivity].
    rewrite (IH (acc ++ list_mul v count)), (IH (list_mul v count)).
    destruct (expand_loop rest []) as [l | e]; simpl; [| reflexivity].
    now rewrite app_assoc.
Qed.

Lemma expand_loop_app (a b : list (string * Z)) :
  forall acc,
    expand_loop (a ++ b) acc = (l <-- expand_loop a acc ;; expand_loop b l).
Proof.
  induction a as [| [key count] rest IH]; intros acc; simpl; [reflexivity |].
  destruct (PyInt.int_base2 key) as [v | e]; [apply IH | reflexivity].
Qed.

(** X6: the loop treats the pairs one after the other and keeps their
    order: the expansion of two lists of pairs put end to end is the
    expansion of the first followed by that of the second, and it fails as
    soon as one of the two does. *)
Theorem expand_app (a b : list (string * Z)) :
  expand (a ++ b)
  = (la <-- expand a ;; lb <-- expand b ;; Ok (la ++ lb)).
Proof.
  unfold expand. rewrite expand_loop_app.
  destruct (expand_loop a []) as [la | e]; simpl; [| reflexivity].
  apply expand_loop_acc.
Qed.

Lemma count_occ_list_mul (u v count : Z) :
  Z.of_nat (count_occ Z.eq_dec (list_mul u count) v)
  = if u =? v then Z.max count 0 else 0.
Proof.
  unfold list_mul. destruct (Z.eqb_spec u v) as [-> | Hne].
  - rewrite count_occ_repeat_eq by reflexivity. lia.
  - rewrite count_occ_repeat_neq by congruence. reflexivity.
Qed.

Lemma count_occ_expand_loop (v : Z) (items : list (string * Z)) :
  forall acc l,
    expand_loop items acc = Ok l ->
    Z.of_nat (count_occ Z.eq_dec l v)
    = Z.of_nat (count_occ Z.eq_dec acc v) + count_for v items.
Proof.
  induction items as [| [key count] rest IH]; intros acc l; simpl.
  - intros [= <-]. lia.
  - destruct (PyInt.int_base2 key) as [u | e]; [| discriminate].
    intros Hl. rewrite (IH _ _ Hl), count_occ_app, Nat2Z.inj_add.
    rewrite count_occ_list_mul. destruct (u =? v); lia.
Qed.

(** X7: the expanded list has the histogram of the counts: a value [v]
    occurs in it as many times as the counts of the keys that read as [v]
    add up to (a negative count as zero). *)
Theorem expand_histogram (counts : list (string * Z)) (l : list Z) (v : Z) :
  expand counts = Ok l ->
  Z.of_nat (count_occ Z.eq_dec l v) = count_for v counts.
Proof.
  intros Hl. rewrite (count_occ_expand_loop v counts [] l Hl). reflexivity.
Qed.

Lemma expand_histogram_witness :
  Z.of_nat (count_occ Z.eq_dec [2; 2; 3; 2] 2)
  = count_for 2 [("10"%string, 2); ("11"%string, 1); ("010"%string, 1); ("00"%string, -4)].
Proof.
  apply expand_histogram. reflexivity.
Defined.

Lemma horner_injective (p : list ascii) :
  forall q a a',
    List.length p = List.length q ->
    forallb is_bit p = true -> forallb is_bit q = true ->
    fold_left (fun acc c => 2 * acc + bit_of c) p a
    = fold_left (fun acc c => 2 * acc + bit_of c) q a' ->
    a = a' /\ p = q.
Proof.
  induction p as [| c p IH]; intros [| d q] a a' Hlen Hp Hq Heq;
    simpl in Hlen; try discriminate.
  - simpl in Heq. auto.
  - simpl in Hp, Hq.
    apply andb_true_iff in Hp. destruct Hp as [Hc Hp].
    apply andb_true_iff in Hq. destruct Hq as [Hd Hq].
    cbn [fold_left] in Heq. injection Hlen as Hlen.
    destruct (IH q _ _ Hlen Hp Hq Heq) as [Hacc ->].
    destruct (is_bit_cases c Hc) as [-> | ->],
             (is_bit_cases d Hd) as [-> | ->];
      try change (bit_of "0"%char) with 0 in Hacc;
      try change (bit_of "1"%char) with 1 in Hacc;
      first [split; [lia | reflexivity] | exfalso; lia].
Qed.

(** X8: two bit patterns of the same number of digits that [int(., 2)]
    reads as the same number are the same string: distinct keys of the
    counts never fall into the same bin. *)
Theorem bit_pattern_value_injective (n : nat) (s t : string) :
  bit_pattern n s = true -> bit_pattern n t = true ->
  PyInt.int_base2 s = PyInt.int_base2 t ->
  s = t.
Proof.
  intros Hs Ht Heq.
  destruct n as [| n].
  - unfold bit_pattern in Hs, Ht.
    apply andb_true_iff in Hs, Ht. destruct Hs as [Hs _], Ht as [Ht _].
    apply Nat.eqb_eq in Hs, Ht. destruct s, t; try discriminate. reflexivity.
  - rewrite (int_base2_bit_pattern (S n) s), (int_base2_bit_pattern (S n) t) in Heq
      by (lia || assumption).
    injection Heq as Heq. unfold bin_value in Heq.
    unfold bit_pattern in Hs, Ht.
    apply andb_true_iff in Hs, Ht. destruct Hs as [Hls Hbs], Ht as [Hlt Hbt].
    apply Nat.eqb_eq in Hls, Hlt.
    assert (Hlen : List.length (list_ascii_of_string s)
                   = List.length (list_ascii_of_string t))
      by (rewrite !length_list_ascii_of_string; congruence).
    destruct (horner_injective _ _ _ _ Hlen Hbs Hbt Heq) as [_ Hlist].
    rewrite <- (string_of_list_ascii_of_string s),
            <- (string_of_list_ascii_of_string t).
    now rewrite Hlist.
Qed.

Lemma bit_pattern_value_injective_witness : "0110"%string = "0110"%string.
Proof.
  apply (bit_pattern_value_injective 4); reflexivity.
Defined.



(** ** The exports *)

Lemma no_char_app (c : ascii) (s t : string) :
  no_char c (s ++ t) = no_char c s && no_char c t.
Proof.
  induction s as [| a s IH]; simpl; [reflexivity |].
  rewrite IH. now rewrite andb_assoc.
Qed.

Lemma no_char_string_of_uint (c : ascii) (d : Decimal.uint) :
  is_decimal c = false ->
  no_char c (NilEmpty.string_of_uint d) = true.
Proof.
  intros Hc. induction d as [| d IH | d IH | d IH | d IH | d IH
                              | d IH | d IH | d IH | d IH | d IH];
    cbn [NilEmpty.string_of_uint no_char]; [reflexivity | ..];
    rewrite IH, andb_true_r;
    apply negb_true_iff, Ascii.eqb_neq; intros <-; discriminate Hc.
Qed.

Lemma no_char_py_str (c : ascii) (z : Z) :
  is_decimal c = false -> c <> "-"%char -> no_char c (py_str z) = true.
Proof.
  intros Hc Hminus. unfold py_str.
  assert (Hu : forall d, no_char c (NilZero.string_of_uint d) = true).
  { intros d. unfold NilZero.string_of_uint.
    destruct d; try apply (no_char_string_of_uint c _ Hc).
    cbn [no_char]. rewrite andb_true_r.
    apply negb_true_iff, Ascii.eqb_neq. intros <-. discriminate Hc. }
  destruct (Z.to_int z) as [d | d]; cbn [NilZero.string_of_int no_char];
    [apply Hu |].
  rewrite Hu, andb_true_r.
  apply negb_true_iff, Ascii.eqb_neq. congruence.
Qed.

Lemma py_str_nonempty (z : Z) : exists a s, py_str z = String a s.
Proof.
  unfold py_str.
  assert (Hu : forall d, d <> Decimal.Nil ->
                 exists a s, NilEmpty.string_of_uint d = String a s)
    by (intros d Hd; destruct d; [congruence | simpl; eauto ..]).
  assert (Hz : forall d, exists a s, NilZero.string_of_uint d = String a s).
  { intros d. destruct d; try (apply Hu; discriminate). simpl. eauto. }
  destruct (Z.to_int z) as [d | d]; simpl; [apply Hz | eauto].
Qed.

Lemma parse_int_py_str (z : Z) : parse_int (py_str z) = Some z.
Proof.
  unfold parse_int, py_str. rewrite NilZero.isi.
  - simpl. now rewrite DecimalZ.of_to.
  - destruct z; simpl; try discriminate.
    intros [= H]. exact (DecimalPos.Unsigned.to_uint_nonnil _ H).
  - destruct z; simpl; try discriminate.
    intros [= H]. exact (DecimalPos.Unsigned.to_uint_nonnil _ H).
Qed.

Lemma split_on_no_char (c : ascii) (s : string) :
  no_char c s = true -> split_on c s = [s].
Proof.
  induction s as [| a s IH]; simpl; [reflexivity |].
  intros H. apply andb_true_iff in H. destruct H as [Ha Hs].
  apply negb_true_iff in Ha. rewrite Ha, (IH Hs). reflexivity.
Qed.

Lemma split_on_app (c : ascii) (s t : string) :
  no_char c s = true ->
  split_on c (s ++ String c t) = s :: split_on c t.
Proof.
  induction s as [| a s IH]; simpl.
  - intros _. now rewrite Ascii.eqb_refl.
  - intros H. apply andb_true_iff in H. destruct H as [Ha Hs].
    apply negb_true_iff in Ha. rewrite Ha, (IH Hs). reflexivity.
Qed.

Lemma split_on_join (c : ascii) (parts : list string) :
  parts <> [] ->
  forallb (no_char c) parts = true ->
  split_on c (join (String c EmptyString) parts) = parts.
Proof.
  induction parts as [| p rest IH]; [congruence |].
  intros _ Hall. simpl in Hall. apply andb_true_iff in Hall.
  destruct Hall as [Hp Hrest].
  destruct rest as [| q rest'].
  - simpl. now apply split_on_no_char.
  - change (join (String c EmptyString) (p :: q :: rest'))
      with (p ++ String c (join (String c EmptyString) (q :: rest')))%string.
    rewrite (split_on_app c p _ Hp), IH; [reflexivity | discriminate | exact Hrest].
Qed.

Lemma all_some_map_Some {A : Type} (l : list A) :
  all_some (map Some l) = Some l.
Proof. induction l as [| a l IH]; simpl; [reflexivity |]. now rewrite IH. Qed.

Lemma newline_not_decimal : is_decimal newline = false.
Proof. reflexivity. Qed.

Lemma comma_not_decimal : is_decimal ","%char = false.
Proof. reflexivity. Qed.

(** X10: the text export loses nothing: reading it back, one integer per
    line, gives the list of samples again, in order; the empty list is the
    empty text. *)
Theorem data_string_round_trip (random_numbers : list Z) :
  parse_txt (data_string random_numbers) = Some random_numbers.
Proof.
  destruct random_numbers as [| v rest]; [reflexivity |].
  unfold parse_txt, data_string.
  assert (Hsplit : split_on newline
                     (join (String newline EmptyString) (map py_str (v :: rest)))
                   = map py_str (v :: rest)).
  { apply split_on_join; [discriminate |].
    apply forallb_forall. intros s Hs. apply in_map_iff in Hs.
    destruct Hs as (z & <- & _).
    apply no_char_py_str; [reflexivity | discriminate]. }
  rewrite Hsplit.
  destruct (join _ _) eqn:Hj.
  - exfalso. destruct (py_str_nonempty v) as (a & s & Hv).
    cbn [map] in Hj. rewrite Hv in Hj.
    destruct (map py_str rest); discriminate Hj.
  - rewrite map_map.
    rewrite (map_ext _ Some) by (intros; apply parse_int_py_str).
    apply all_some_map_Some.
Qed.

Lemma parse_record_line (i v : Z) :
  parse_record (py_str i ++ "," ++ py_str v)%string = Some (i, v).
Proof.
  unfold parse_record.
  change (py_str i ++ "," ++ py_str v)%string
    with (py_str i ++ String ","%char (py_str v))%string.
  rewrite split_on_app
    by (apply no_char_py_str; [reflexivity | discriminate]).
  rewrite split_on_no_char
    by (apply no_char_py_str; [reflexivity | discriminate]).
  now rewrite !parse_int_py_str.
Qed.

Lemma map_snd_combine_same {A B : Type} (a : list A) (b : list B) :
  List.length a = List.length b -> map snd (combine a b) = b.
Proof.
  revert b. induction a as [| x a IH]; intros [| y b] H; simpl in *;
    try discriminate; [reflexivity |].
  now rewrite IH by congruence.
Qed.

Lemma map_fst_combine_same {A B : Type} (a : list A) (b : list B) :
  List.length a = List.length b -> map fst (combine a b) = a.
Proof.
  revert b. induction a as [| x a IH]; intros [| y b] H; simpl in *;
    try discriminate; [reflexivity |].
  now rewrite IH by congruence.
Qed.

Lemma enumerate_parts {A : Type} (l : list A) :
  map snd (enumerate l) = l /\
  map fst (enumerate l) = map Z.of_nat (seq 0 (List.length l)).
Proof.
  unfold enumerate. split.
  - apply map_snd_combine_same. now rewrite length_map, length_seq.
  - apply map_fst_combine_same. now rewrite length_map, length_seq.
Qed.

(** X11: the CSV export loses nothing either: reading it back, the header
    and then one record per line, gives every sample with its zero-based
    position, in order; the empty list is the header alone. *)
Theorem csv_data_round_trip (random_numbers : list Z) :
  parse_csv (csv_data random_numbers) = Some (enumerate random_numbers) /\
  map snd (enumerate random_numbers) = random_numbers /\
  map fst (enumerate random_numbers)
  = map Z.of_nat (seq 0 (List.length random_numbers)).
Proof.
  split; [| apply enumerate_parts].
  unfold parse_csv, csv_data.
  set (records := map (fun iv => (py_str (fst iv) ++ "," ++ py_str (snd iv))%string)
                      (enumerate random_numbers)).
  set (body := join (String newline EmptyString) records).
  change (("index,value" ++ String newline EmptyString) ++ body)%string
    with ("index,value" ++ String newline body)%string.
  rewrite split_on_app by reflexivity.
  change (String.eqb "index,value" "index,value") with true. cbv iota.
  destruct random_numbers as [| v rest]; [reflexivity |].
  assert (Hsplit : split_on newline body = records).
  { apply split_on_join; [discriminate |].
    apply forallb_forall. intros s Hs. apply in_map_iff in Hs.
    destruct Hs as ([i x] & <- & _). cbn [fst snd].
    rewrite !no_char_app.
    rewrite !no_char_py_str by (reflexivity || discriminate). reflexivity. }
  rewrite Hsplit.
  assert (Hparse : all_some (map parse_record records)
                   = Some (enumerate (v :: rest))).
  { unfold records. rewrite map_map.
    rewrite (map_ext _ Some).
    - apply all_some_map_Some.
    - intros [i x]. apply parse_record_line. }
  rewrite <- Hparse.
  unfold records, enumerate. cbn [List.length seq map combine fst snd].
  destruct (py_str_nonempty (Z.of_nat 0)) as (a & s & Hz).
  rewrite Hz. cbn [append]. reflexivity.
Qed.

(** ** The preview *)

Lemma ceil_div_cover (len k : nat) :
  (0 < k)%nat ->
  (len <= (len + k - 1) / k * k)%nat /\
  ((len + k - 1) / k * k < len + k)%nat.
Proof.
  intros Hk.
  pose proof (Nat.div_mod_eq (len + k - 1) k) as Hdm.
  pose proof (Nat.mod_upper_bound (len + k - 1) k ltac:(lia)) as Hr.
  set (q := ((len + k - 1) / k)%nat) in *.
  set (r := ((len + k - 1) mod k)%nat) in *.
  nia.
Qed.

(** Cutting a list into pieces of [k] elements, as many as it takes. *)
Lemma concat_pieces {A : Type} (k : nat) (m : nat) :
  forall l : list A,
    (List.length l <= m * k)%nat ->
    List.concat (map (fun j => firstn k (skipn (j * k) l)) (seq 0 m)) = l.
Proof.
  induction m as [| m IH]; intros l Hlen.
  - simpl in *. destruct l; [reflexivity | simpl in Hlen; lia].
  - cbn [seq map List.concat]. rewrite <- seq_shift, map_map.
    rewrite (map_ext _ (fun j => firstn k (skipn (j * k) (skipn k l)))).
    + rewrite IH by (rewrite length_skipn; lia).
      cbn [Nat.mul skipn]. apply firstn_skipn.
    + intros j. rewrite skipn_skipn. do 2 f_equal. lia.
Qed.

Lemma preview_chunks_eq (random_numbers : list Z) (preview_size : nat) :
  preview_chunks random_numbers preview_size
  = map (fun j => firstn 10 (skipn (j * 10) (firstn preview_size random_numbers)))
        (seq 0 ((List.length (firstn preview_size random_numbers) + 10 - 1) / 10)).
Proof.
  unfold preview_chunks, range_step, slice. rewrite map_map.
  apply map_ext. intros j. do 2 f_equal. lia.
Qed.

Lemma preview_chunks_facts (random_numbers : list Z) (preview_size : nat) :
  let rows := preview_chunks random_numbers preview_size in
  List.concat rows = firstn preview_size random_numbers /\
  List.length rows
  = ((Nat.min preview_size (List.length random_numbers) + 9) / 10)%nat /\
  Forall (fun row => (1 <= List.length row <= 10)%nat) rows /\
  (forall j, (S j < List.length rows)%nat -> List.length (nth j rows []) = 10%nat).
Proof.
  cbn zeta. rewrite preview_chunks_eq.
  set (pd := firstn preview_size random_numbers).
  pose proof (ceil_div_cover (List.length pd) 10 ltac:(lia)) as [Hlo Hhi].
  set (m := ((List.length pd + 10 - 1) / 10)%nat) in *.
  split; [apply concat_pieces; exact Hlo |].
  split.
  { rewrite length_map, length_seq. unfold m, pd.
    rewrite length_firstn. f_equal. lia. }
  split.
  - apply Forall_forall. intros row Hrow. apply in_map_iff in Hrow.
    destruct Hrow as (j & <- & Hj). apply in_seq in Hj.
    rewrite length_firstn, length_skipn. lia.
  - rewrite length_map, length_seq. intros j Hj.
    rewrite (nth_indep _ [] (firstn 10 (skipn (0 * 10) pd)))
      by (rewrite length_map, length_seq; lia).
    rewrite (map_nth (fun j => firstn 10 (skipn (j * 10) pd))).
    rewrite seq_nth by lia.
    rewrite length_firstn, length_skipn. lia.
Qed.

(** X12: the preview shows the first [preview_size] samples (all of them
    when there are fewer), each once and in order, in rows that are never
    empty and hold ten samples, except that the last row may hold fewer;
    the number of rows is the number of samples shown over ten, rounded
    up. *)
Theorem preview_chunks_cover (random_numbers : list Z) (preview_size : nat) :
  let rows := preview_chunks random_numbers preview_size in
  List.concat rows = firstn preview_size random_numbers /\
  List.length rows
  = ((Nat.min preview_size (List.length random_numbers) + 9) / 10)%nat /\
  Forall (fun row => (1 <= List.length row <= 10)%nat) rows /\
  (forall j, (S j < List.length rows)%nat -> List.length (nth j rows []) = 10%nat).
Proof. exact (preview_chunks_facts random_numbers preview_size). Qed.

Lemma string_length_append (s t : string) :
  String.length (s ++ t) = (String.length s + String.length t)%nat.
Proof. induction s as [| a s IH]; simpl; congruence. Qed.

Lemma string_length_of_list (l : list ascii) :
  String.length (string_of_list_ascii l) = List.length l.
Proof. induction l as [| a l IH]; simpl; congruence. Qed.

Lemma py_str_length_small (v : Z) :
  0 <= v <= 999 -> (1 <= String.length (py_str v) <= 3)%nat.
Proof.
  intros Hv.
  assert (Hall : forallb (fun k => let n := String.length (py_str (Z.of_nat k)) in
                                   Nat.leb 1 n && Nat.leb n 3)
                         (seq 0 1000) = true) by (vm_compute; reflexivity).
  rewrite forallb_forall in Hall.
  specialize (Hall (Z.to_nat v) ltac:(apply in_seq; lia)).
  cbn zeta in Hall. rewrite Z2Nat.id in Hall by lia.
  apply andb_true_iff in Hall. destruct Hall as [H1 H3].
  apply Nat.leb_le in H1, H3. lia.
Qed.

Lemma format_3d_length (v : Z) :
  0 <= v <= 999 -> String.length (format_3d v) = 3%nat.
Proof.
  intros Hv. pose proof (py_str_length_small v Hv) as Hlen.
  unfold format_3d. cbn zeta.
  rewrite string_length_append, string_length_of_list, repeat_length. lia.
Qed.

Lemma join_length_fixed (parts : list string) (w : nat) :
  Forall (fun p => String.length p = w) parts ->
  (String.length (join " " parts) + 1 = List.length parts * (w + 1)
   \/ parts = [])%nat.
Proof.
  induction 1 as [| p rest Hp Hrest IH]; [now right |]. left.
  destruct rest as [| q rest'].
  - simpl. lia.
  - change (join " " (p :: q :: rest'))
      with (p ++ String " "%char (join " " (q :: rest')))%string.
    rewrite string_length_append. cbn [String.length List.length].
    destruct IH as [IH | IH]; [| discriminate].
    cbn [List.length] in IH. lia.
Qed.

(** X13: when the samples are non-negative and of at most three digits,
    which they are for up to eight qubits, every sample takes three
    characters in the preview and a row of [k] samples is [4 k - 1]
    characters long: the columns line up. *)
Theorem preview_rows_width (random_numbers : list Z) (preview_size : nat) :
  Forall (fun v => 0 <= v <= 999) random_numbers ->
  Forall2 (fun chunk row =>
             (String.length row + 1 = 4 * List.length chunk)%nat)
          (preview_chunks random_numbers preview_size)
          (preview_rows random_numbers preview_size).
Proof.
  intros Hr. unfold preview_rows.
  pose proof (preview_chunks_facts random_numbers preview_size) as Hcover.
  cbn zeta in Hcover. destruct Hcover as (Hcat & _ & Hne & _).
  assert (Hin : forall chunk, In chunk (preview_chunks random_numbers preview_size) ->
                  Forall (fun v => 0 <= v <= 999) chunk).
  { intros chunk Hc. apply Forall_forall. intros v Hv.
    rewrite Forall_forall in Hr. apply Hr.
    rewrite <- (firstn_skipn preview_size random_numbers).
    apply in_or_app. left. rewrite <- Hcat.
    apply in_concat. eauto. }
  revert Hne Hin.
  generalize (preview_chunks random_numbers preview_size) as chunks.
  induction chunks as [| chunk chunks IH]; intros Hne Hin; cbn [map];
    constructor.
  - inversion Hne as [| ? ? Hlen _]; subst.
    destruct (join_length_fixed (map format_3d chunk) 3) as [Hj | Hj].
    + apply Forall_forall. intros p Hp. apply in_map_iff in Hp.
      destruct Hp as (v & <- & Hv). apply format_3d_length.
      specialize (Hin chunk (or_introl eq_refl)).
      rewrite Forall_forall in Hin. now apply Hin.
    + rewrite length_map in Hj. lia.
    + destruct chunk; [simpl in Hlen; lia | discriminate].
  - apply IH.
    + now inversion Hne.
    + intros c Hc. apply Hin. now right.
Qed.

Lemma preview_rows_width_witness :
  Forall2 (fun chunk row =>
             (String.length row + 1 = 4 * List.length chunk)%nat)
          (preview_chunks [7; 255; 0; 31; 4; 4; 128; 9; 10; 11; 12; 200] 11)
          (preview_rows [7; 255; 0; 31; 4; 4; 128; 9; 10; 11; 12; 200] 11).
Proof.
  apply preview_rows_width. repeat constructor; lia.
Defined.

(** ** Without rounding *)

Module ExactFacts.

Import Reals.
Local Open Scope R_scope.

Lemma fold_left_Rplus (l : list R) :
  forall a, fold_left Rplus l a = a + sum_R l.
Proof.
  induction l as [| x l IH]; intros a; simpl.
  - lra.
  - rewrite IH. lra.
Qed.

Lemma np_sum_exact (cdf : R -> Z -> R) (l : list R) :
  np_sum (num := Exact.numeric cdf) l = sum_R l.
Proof. unfold np_sum. simpl. rewrite fold_left_Rplus. lra. Qed.

Lemma sum_R_map_IZR (l : list Z) : sum_R (map IZR l) = IZR (sum_Z l).
Proof.
  induction l as [| x l IH]; simpl; [reflexivity |].
  rewrite IH, plus_IZR. reflexivity.
Qed.

Lemma sum_R_nonneg (l : list R) : Forall (fun x => 0 <= x) l -> 0 <= sum_R l.
Proof. induction 1 as [| x l Hx _ IH]; simpl; lra. Qed.

Lemma sum_Z_lower (m : Z) (l : list Z) :
  Forall (fun x => (m <= x)%Z) l ->
  (Z.of_nat (List.length l) * m <= sum_Z l)%Z.
Proof.
  induction 1 as [| x l Hx _ IH]; [simpl; lia |].
  cbn [List.length sum_Z fold_right]. fold (sum_Z l). lia.
Qed.

Lemma sum_Z_upper (m : Z) (l : list Z) :
  Forall (fun x => (x <= m)%Z) l ->
  (sum_Z l <= Z.of_nat (List.length l) * m)%Z.
Proof.
  induction 1 as [| x l Hx _ IH]; [simpl; lia |].
  cbn [List.length sum_Z fold_right]. fold (sum_Z l). lia.
Qed.

Lemma np_mean_exact (cdf : R -> Z -> R) (data : list Z) :
  np_mean (num := Exact.numeric cdf) data
  = IZR (sum_Z data) / IZR (Z.of_nat (List.length data)).
Proof.
  unfold np_mean. rewrite np_sum_exact. simpl.
  now rewrite sum_R_map_IZR.
Qed.



Lemma expected_positive (data : list Z) (K : nat) :
  data <> [] -> (1 <= K)%nat ->
  0 < IZR (Z.of_nat (List.length data)) / IZR (Z.of_nat K).
Proof.
  intros Hne HK. apply Rdiv_lt_0_compat; apply IZR_lt.
  - destruct data; [congruence | simpl List.length; lia].
  - lia.
Qed.

Lemma pow2_nat_pos (n : nat) : (1 <= Nat.pow 2 n)%nat.
Proof. induction n as [| n IH]; simpl; lia. Qed.



Lemma in_bincount_size (data : list Z) (minlength : nat) :
  Forall (fun v => (0 <= v)%Z) data ->
  Forall (fun v => (0 <= v < Z.of_nat (bincount_size data minlength))%Z) data.
Proof.
  intros Hx. pose proof (amax_ge data) as Hmax.
  rewrite Forall_forall in *. intros v Hv.
  specialize (Hx v Hv). specialize (Hmax v Hv).
  destruct data as [| w data']; [destruct Hv |].
  unfold bincount_size. lia.
Qed.

(** The observed frequencies of a list in range add up to its length. *)
Lemma observed_sum (n : nat) (data : list Z) :
  in_range n data ->
  sum_Z (map (observed data) (seq 0 (Nat.pow 2 n))) = Z.of_nat (List.length data).
Proof.
  intros Hr. pose proof (np_bincount_in_range n data Hr) as Hb.
  assert (Hnn : Forall (fun v => (0 <= v)%Z) data)
    by (eapply Forall_impl; [| exact Hr]; simpl; intros; lia).
  unfold np_bincount in Hb. rewrite (existsb_negative_false data Hnn) in Hb.
  fold (bincount_size data (Nat.pow 2 n)) in Hb.
  injection Hb as Hb. rewrite <- Hb.
  rewrite sum_Z_fold_incr, sum_Z_repeat_zero; [lia |].
  rewrite repeat_length. now apply in_bincount_size.
Qed.

Lemma sum_Z_const (c : Z) (l : list nat) :
  sum_Z (map (fun _ => c) l) = (Z.of_nat (List.length l) * c)%Z.
Proof.
  induction l as [| i l IH]; [reflexivity |].
  cbn [map sum_Z fold_right List.length]. fold (sum_Z (map (fun _ => c) l)).
  rewrite IH. lia.
Qed.

Lemma sum_R_zeros {A : Type} (l : list A) : sum_R (map (fun _ => 0) l) = 0.
Proof. induction l as [| a l IH]; simpl; [reflexivity |]. rewrite IH. lra. Qed.



Lemma sum_R_terms (O : nat -> Z) (E : R) (l : list nat) :
  E <> 0 ->
  sum_R (map (fun i => (IZR (O i) - E) * (IZR (O i) - E) / E) l)
  = IZR (sum_Z (map (fun i => (O i * O i)%Z) l)) / E
    - 2 * IZR (sum_Z (map O l))
    + IZR (Z.of_nat (List.length l)) * E.
Proof.
  intros HE. induction l as [| i l IH].
  - simpl. field. exact HE.
  - cbn [map sum_R fold_right sum_Z List.length].
    fold (sum_R (map (fun i => (IZR (O i) - E) * (IZR (O i) - E) / E) l)).
    fold (sum_Z (map (fun i => (O i * O i)%Z) l)). fold (sum_Z (map O l)).
    rewrite IH, Nat2Z.inj_succ, succ_IZR, !plus_IZR, mult_IZR.
    field. exact HE.
Qed.

(** The statistic by the usual shortcut. *)
Lemma chi2_spec_shortcut (cdf : R -> Z -> R) (data : list Z) (n : nat) :
  data <> [] -> in_range n data ->
  chi2_spec (num := Exact.numeric cdf) data (Nat.pow 2 n)
  = IZR (Z.of_nat (Nat.pow 2 n)) / IZR (Z.of_nat (List.length data))
    * IZR (sum_Z (map (fun i => (observed data i * observed data i)%Z)
                      (seq 0 (Nat.pow 2 n))))
    - IZR (Z.of_nat (List.length data)).
Proof.
  intros Hne Hr. unfold chi2_spec. rewrite np_sum_exact. cbn zeta. simpl.
  pose proof (expected_positive data (Nat.pow 2 n) Hne (pow2_nat_pos n)) as HE.
  rewrite (sum_R_terms (observed data)) by lra.
  rewrite (observed_sum n data Hr), length_seq.
  assert (HN : IZR (Z.of_nat (List.length data)) <> 0).
  { apply not_0_IZR. destruct data; [congruence | simpl List.length; lia]. }
  assert (HK : IZR (Z.of_nat (Nat.pow 2 n)) <> 0).
  { apply not_0_IZR. pose proof (pow2_nat_pos n). lia. }
  field. split; assumption.
Qed.



Lemma sum_Z_indicator (v : nat) (c : Z) (len : nat) :
  forall start,
    sum_Z (map (fun i => if Nat.eqb i v then c else 0%Z) (seq start len))
    = if (Nat.leb start v && Nat.ltb v (start + len))%bool then c else 0%Z.
Proof.
  induction len as [| len IH]; intros start.
  - simpl. rewrite Nat.add_0_r.
    destruct (Nat.leb_spec start v), (Nat.ltb_spec v start); simpl; lia.
  - cbn [seq map sum_Z fold_right].
    fold (sum_Z (map (fun i => if Nat.eqb i v then c else 0%Z) (seq (S start) len))).
    rewrite IH.
    destruct (Nat.eqb_spec start v), (Nat.leb_spec start v),
      (Nat.leb_spec (S start) v), (Nat.ltb_spec v (S start + len)),
      (Nat.ltb_spec v (start + S len)); simpl; lia.
Qed.

Lemma observed_repeat (v : Z) (N i : nat) :
  (0 <= v)%Z ->
  observed (repeat v N) i
  = if Nat.eqb i (Z.to_nat v) then Z.of_nat N else 0%Z.
Proof.
  intros Hv. unfold observed.
  destruct (Nat.eqb_spec i (Z.to_nat v)) as [-> | Hne].
  - rewrite count_occ_repeat_eq by lia. reflexivity.
  - rewrite count_occ_repeat_neq by lia. reflexivity.
Qed.



Lemma sum_Z_repeat (v : Z) (N : nat) :
  sum_Z (repeat v N) = (Z.of_nat N * v)%Z.
Proof.
  induction N as [| N IH]; [reflexivity |].
  cbn [repeat sum_Z fold_right]. fold (sum_Z (repeat v N)). rewrite IH. lia.
Qed.

Lemma sum_R_repeat_zero (N : nat) : sum_R (repeat 0 N) = 0.
Proof. induction N as [| N IH]; simpl; [reflexivity |]. rewrite IH. lra. Qed.



End ExactFacts.

(** ** The circuit *)

Lemma fold_left_append_H (l : list nat) :
  forall qc,
    fold_left (fun qc qubit => qc ++ [H_gate qubit]) l qc = qc ++ map H_gate l.
Proof.
  induction l as [| q l IH]; intros qc; simpl.
  - now rewrite app_nil_r.
  - rewrite IH, <- app_assoc. reflexivity.
Qed.

Lemma combine_diagonal {A : Type} (l : list A) :
  combine l l = map (fun x => (x, x)) l.
Proof. induction l as [| x l IH]; simpl; congruence. Qed.

Lemma create_qrng_circuit_eq (n : nat) :
  create_qrng_circuit n
  = map H_gate (seq 0 n) ++ map (fun q => Measure q q) (seq 0 n).
Proof.
  unfold create_qrng_circuit, qc_measure.
  rewrite fold_left_append_H, combine_diagonal, map_map. reflexivity.
Qed.

Lemma filter_all {A : Type} (p : A -> bool) (l : list A) :
  (forall x, In x l -> p x = true) -> filter p l = l.
Proof.
  induction l as [| x l IH]; simpl; intros H; [reflexivity |].
  rewrite (H x (or_introl eq_refl)), IH; auto.
Qed.

Lemma filter_none {A : Type} (p : A -> bool) (l : list A) :
  (forall x, In x l -> p x = false) -> filter p l = [].
Proof.
  induction l as [| x l IH]; simpl; intros H; [reflexivity |].
  rewrite (H x (or_introl eq_refl)), IH; auto.
Qed.

(** X20: the circuit applies one Hadamard gate to each of the [n] qubits
    and then measures each qubit once, into the classical bit of the same
    index: [n] gates and [n] measurements, as the page reports, and no gate
    after a measurement. *)
Theorem create_qrng_circuit_shape (n : nat) :
  let qc := create_qrng_circuit n in
  filter is_H_gate qc = map H_gate (seq 0 n) /\
  filter is_measure qc = map (fun q => Measure q q) (seq 0 n) /\
  List.length (filter is_H_gate qc) = n /\
  List.length (filter is_measure qc) = n /\
  qc = filter is_H_gate qc ++ filter is_measure qc.
Proof.
  cbn zeta. rewrite create_qrng_circuit_eq.
  assert (HH : filter is_H_gate
                 (map H_gate (seq 0 n) ++ map (fun q => Measure q q) (seq 0 n))
               = map H_gate (seq 0 n)).
  { rewrite filter_app, filter_all, filter_none, app_nil_r; [reflexivity | |];
      intros x Hx; apply in_map_iff in Hx; destruct Hx as (q & <- & _);
      reflexivity. }
  assert (HM : filter is_measure
                 (map H_gate (seq 0 n) ++ map (fun q => Measure q q) (seq 0 n))
               = map (fun q => Measure q q) (seq 0 n)).
  { rewrite filter_app, filter_none, filter_all; [reflexivity | |];
      intros x Hx; apply in_map_iff in Hx; destruct Hx as (q & <- & _);
      reflexivity. }
  rewrite HH, HM, !length_map, !length_seq. repeat split; reflexivity.
Qed.
